(** * SafeClaw intent bridge: a shallow embedding of
      [skills/intent_tracker/safeclaw_integration.py]

    The bridge asks a project assistant and a habit assistant about one chat
    message, merges their answers, and may add a follow-up question on small
    talk.  The two assistants live in [project_tracker] and [habit_tracker];
    here they are an interface ([Collaborators]) whose methods run on an
    explicit world state. *)

From Stdlib Require Import ZArith NArith List String Ascii Bool Lia.
From Stdlib Require Import DecimalString DecimalPos DecimalZ.
Import ListNotations.

Local Open Scope Z_scope.

(* ===================================================================== *)
(** ** Python strings *)
(* ===================================================================== *)

Module PyStr.

(** A Python [str] is a sequence of Unicode code points. *)
Definition codepoint := N.
Definition str := list codepoint.

(** Literals are written as UTF-8 byte strings and decoded to code points.
    [utf8_go pending acc bs]: [pending] continuation bytes are still expected
    for the code point whose leading bits are [acc]. *)
Fixpoint utf8_go (pending : nat) (acc : N) (bs : list N) : str :=
  match bs with
  | [] => []
  | b :: bs' =>
      match pending with
      | O =>
          if (b <? 128)%N then b :: utf8_go 0 0 bs'
          else if (b <? 224)%N then utf8_go 1 (b - 192) bs'
          else if (b <? 240)%N then utf8_go 2 (b - 224) bs'
          else utf8_go 3 (b - 240) bs'
      | S O => (acc * 64 + (b - 128))%N :: utf8_go 0 0 bs'
      | S n => utf8_go n (acc * 64 + (b - 128))%N bs'
      end
  end.

Definition u (s : string) : str :=
  utf8_go 0 0 (map N_of_ascii (list_ascii_of_string s)).

(** [starts_with p s]: [s] begins with [p]. *)
Fixpoint starts_with (p s : str) : bool :=
  match p, s with
  | [], _ => true
  | _ :: _, [] => false
  | a :: p', b :: s' => (a =? b)%N && starts_with p' s'
  end.

(** [p in s] on strings: [p] occurs in [s] as a contiguous run. *)
Fixpoint str_in (p s : str) : bool :=
  starts_with p s ||
  match s with
  | [] => false
  | _ :: s' => str_in p s'
  end.

(** The relation [str_in] decides. *)
Definition Substring (p s : str) : Prop :=
  exists pre post, s = pre ++ p ++ post.

(** [str(n)] for an [int]: decimal digits, with a leading minus sign below
    zero. *)
Definition str_of_int (n : Z) : str :=
  map N_of_ascii (list_ascii_of_string (NilZero.string_of_int (Z.to_int n))).

(** Truth value of a [str]: the empty string is false. *)
Definition str_truthy (s : str) : bool :=
  match s with [] => false | _ :: _ => true end.

(** Truth value of an [Optional[str]]: [None] and the empty string are false. *)
Definition truthy (o : option str) : bool :=
  match o with None => false | Some s => str_truthy s end.

Definition is_None {A} (o : option A) : bool :=
  match o with None => true | Some _ => false end.

(** [x in xs] for a list of strings. *)
Definition str_eqb (a b : str) : bool :=
  if list_eq_dec N.eq_dec a b then true else false.

Definition in_list (x : str) (xs : list str) : bool :=
  existsb (str_eqb x) xs.

(** *** [str.lower]

    On ASCII, [lower] maps [A-Z] to [a-z] and leaves every other code point
    alone; the CJK unified ideographs (U+4E00..U+9FFF) have no case.  The rest
    of the Unicode case table is not needed and is left open: [lower] is an
    operation of the [PyUnicode] interface, fixed on the code points above. *)
Definition ascii_lower (c : codepoint) : codepoint :=
  if ((65 <=? c) && (c <=? 90))%N then (c + 32)%N else c.

Definition plain_cp (c : codepoint) : bool :=
  ((c <? 128) || ((19968 <=? c) && (c <=? 40959)))%N.

Class PyUnicode := {
  lower : str -> str;
  lower_plain :
    forall s, forallb plain_cp s = true -> lower s = map ascii_lower s
}.

End PyStr.
Export PyStr.

(* ===================================================================== *)
(** ** Exceptions and state *)
(* ===================================================================== *)

Module Py.

Inductive exn := IndexError.

Inductive outcome (A : Type) :=
| Ok (a : A)
| Raise (e : exn).
Arguments Ok {A} a.
Arguments Raise {A} e.

(** A method call on the world [W] of the two assistants: it returns a value
    and the world it leaves behind, or raises. *)
Definition M (W A : Type) := W -> outcome (A * W).

Definition ret {W A} (a : A) : M W A := fun w => Ok (a, w).

Definition bind {W A B} (c : M W A) (k : A -> M W B) : M W B :=
  fun w => match c w with
           | Ok (a, w') => k a w'
           | Raise e => Raise e
           end.

Definition raise {W A} (e : exn) : M W A := fun _ => Raise e.

(** A collaborator method, which is assumed not to raise. *)
Definition call {W A} (f : W -> A * W) : M W A := fun w => Ok (f w).

Fixpoint mapM {W A B} (f : A -> M W B) (xs : list A) : M W (list B) :=
  match xs with
  | [] => ret []
  | x :: xs' =>
      bind (f x) (fun y => bind (mapM f xs') (fun ys => ret (y :: ys)))
  end.

(** [l[i]]: a negative index counts from the end; outside
    [-len(l) .. len(l)-1] the lookup fails. *)
Definition list_getitem {A} (l : list A) (i : Z) : option A :=
  let n := Z.of_nat (List.length l) in
  let j := if i <? 0 then i + n else i in
  if (0 <=? j) && (j <? n) then nth_error l (Z.to_nat j) else None.

Definition getitem {W A} (l : list A) (i : Z) : M W A :=
  match list_getitem l i with
  | Some a => ret a
  | None => raise IndexError
  end.

End Py.
Export Py.

Declare Scope py_scope.
Delimit Scope py_scope with py.
Notation "x <- c ;; k" := (bind c (fun x => k))
  (at level 61, c at next level, right associativity) : py_scope.
Local Open Scope py_scope.

(* ===================================================================== *)
(** ** Data model *)
(* ===================================================================== *)

(** Objects owned by the collaborators; the bridge only reads them.  A phase
    descriptor is a dict of which the bridge reads the ["name"] entry. *)
Record Phase := { phase_name : str }.

Record Project := {
  project_name : str;
  phases : list Phase;
  current_phase : Z
}.

Record Habit := {
  habit_name : str;
  streak : Z;
  total : Z
}.

(** What [process_message] returns: [{"action": ..., "response": ...}]. *)
Record AssistantResult := {
  res_action : str;
  response : option str
}.

(** What [detect_and_track] returns: [{"action": ..., "message": ...}]. *)
Record IntentResult := {
  action : str;
  message : option str
}.

(** The dict built by [get_status] and its two kinds of entries. *)
Record ProjectStatus := {
  ps_name : str;
  ps_phase : str;
  ps_progress : str
}.

Record HabitStatus := {
  hs_name : str;
  hs_streak : Z;
  hs_total : Z
}.

Record StatusSnapshot := {
  active_projects : Z;
  active_habits : Z;
  projects : list ProjectStatus;
  habits : list HabitStatus
}.

(** The two assistants, as the bridge uses them.  Every method runs on the
    world [W] (the assistants' memory and whatever they persist) and leaves a
    world behind. *)
Class Collaborators (W : Type) := {
  ProjectAwareAssistant : W -> unit * W;
  HabitAwareAssistant : W -> unit * W;
  project_process_message : str -> W -> AssistantResult * W;
  get_pending_projects : W -> list Project * W;
  habit_process_message : str -> W -> AssistantResult * W;
  get_active_habits : W -> list Habit * W
}.

(* ===================================================================== *)
(** ** The bridge *)
(* ===================================================================== *)

Definition casual_patterns : list str :=
  [ u "天气"; u "在吗"; u "最近"; u "今天"; u "你好"; u "哈啰";
    u "hi"; u "hello"; u "hey" ].

Section Bridge.

Context {U : PyUnicode} {W : Type} {C : Collaborators W}.

(** [SafeClawIntentBridge.__init__] *)
Definition SafeClawIntentBridge : M W unit :=
  _ <- call ProjectAwareAssistant ;;
  call HabitAwareAssistant.

(** [_is_casual_message] *)
Definition _is_casual_message (text : str) : bool :=
  let text_lower := lower text in
  existsb (fun pattern => str_in (lower pattern) text_lower) casual_patterns.

(** The two f-strings of [_generate_follow_up]. *)
Definition project_follow_up (project : Project) (phase_info : Phase) : str :=
  u "对了，" ++ project_name project ++ u "进展怎么样啦？"
    ++ phase_name phase_info ++ u "阶段有什么需要帮忙的吗？".

Definition habit_follow_up (habit : Habit) : str :=
  habit_name habit ++ u "连续" ++ str_of_int (streak habit)
    ++ u "天了！今天做了吗？".

(** [_generate_follow_up] *)
Definition _generate_follow_up : M W (option str) :=
  projects <- call get_pending_projects ;;
  match projects with
  | project :: _ =>
      phase_info <- getitem (phases project) (current_phase project) ;;
      ret (Some (project_follow_up project phase_info))
  | [] =>
      habits <- call get_active_habits ;;
      match habits with
      | habit :: _ => ret (Some (habit_follow_up habit))
      | [] => ret None
      end
  end.

(** [detect_and_track] *)
Definition detect_and_track (text : str) : M W IntentResult :=
  let result := {| action := u "none"; message := None |} in
  project_result <- call (project_process_message text) ;;
  let result :=
    if in_list (res_action project_result)
         [u "create_project"; u "update_progress"]
    then {| action := res_action project_result;
            message := response project_result |}
    else result in
  habit_result <- call (habit_process_message text) ;;
  let result :=
    if in_list (res_action habit_result) [u "create_habit"; u "log_habit"]
    then {| action := res_action habit_result;
            message := response habit_result |}
    else result in
  if is_None (message result) && _is_casual_message text then
    follow_up <- _generate_follow_up ;;
    if truthy follow_up
    then ret {| action := u "follow_up"; message := follow_up |}
    else ret result
  else ret result.

(** One entry of the ["projects"] list of [get_status]. *)
Definition project_status (p : Project) : M W ProjectStatus :=
  phase_info <- getitem (phases p) (current_phase p) ;;
  ret {| ps_name := project_name p;
         ps_phase := phase_name phase_info;
         ps_progress :=
           str_of_int (current_phase p + 1) ++ u "/"
             ++ str_of_int (Z.of_nat (List.length (phases p))) |}.

Definition habit_status (h : Habit) : HabitStatus :=
  {| hs_name := habit_name h; hs_streak := streak h; hs_total := total h |}.

(** [get_status] *)
Definition get_status : M W StatusSnapshot :=
  projects <- call get_pending_projects ;;
  habits <- call get_active_habits ;;
  project_entries <- mapM project_status projects ;;
  ret {| active_projects := Z.of_nat (List.length projects);
         active_habits := Z.of_nat (List.length habits);
         projects := project_entries;
         habits := map habit_status habits |}.

(** The module-level [process_text]. *)
Definition process_text (text : str) : M W (option str) :=
  _ <- SafeClawIntentBridge ;;
  result <- detect_and_track text ;;
  if truthy (message result) then ret (message result) else ret None.

End Bridge.

(* ===================================================================== *)
(** ** The command line *)
(* ===================================================================== *)

Module Cli.

(** What [parser.parse_args()] hands over: [command] is one of the two
    choices, [text] is [None] unless [-t/--text] was given. *)
Inductive Command := process | status.

Record Args := {
  command : Command;
  text : option str
}.

(** The newline that opens several of the printed lines. *)
Definition nl : str := [10%N].

Definition project_line (p : ProjectStatus) : str :=
  u "  - " ++ ps_name p ++ u " (" ++ ps_phase p ++ u ")".

Definition habit_line (h : HabitStatus) : str :=
  u "  - " ++ hs_name h ++ u ": " ++ str_of_int (hs_streak h)
    ++ u " day streak".




Section Main.

Context {U : PyUnicode} {W : Type} {C : Collaborators W}.

(** The body under [if __name__ == "__main__"], after the arguments are
    parsed.  It returns the arguments of the [print] calls, in order, and the
    exit status; an exception nobody catches is an exception of [main]. *)
Definition main (args : Args) : M W (list str * Z) :=
  _ <- SafeClawIntentBridge ;;
  match command args with
  | process =>
      if negb (truthy (text args)) then
        ret ([u "Error: --text required"], 1)
      else
        result <- detect_and_track
                    (match text args with Some t => t | None => [] end) ;;
        if truthy (message result)
        then ret ([nl ++ match message result with
                         | Some m => m
                         | None => []
                         end], 0)
        else ret ([nl ++ u "No action taken"], 0)
  | status =>
      snapshot <- get_status ;;
      let head :=
        [ nl ++ u "Active Projects: " ++ str_of_int (active_projects snapshot);
          u "Active Habits: " ++ str_of_int (active_habits snapshot) ] in
      let project_part :=
        match projects snapshot with
        | [] => []
        | _ :: _ =>
            (nl ++ u "📌 Projects:") :: map project_line (projects snapshot)
        end in
      let habit_part :=
        match habits snapshot with
        | [] => []
        | _ :: _ =>
            (nl ++ u "🏃 Habits:") :: map habit_line (habits snapshot)
        end in
      ret (head ++ project_part ++ habit_part, 0)
  end.

End Main.

End Cli.

(* ===================================================================== *)
(** ** Test doubles *)
(* ===================================================================== *)

(** [str.lower] restricted to the ASCII letters. *)
Definition ascii_unicode : PyUnicode :=
  {| lower := map ascii_lower;
     lower_plain := fun s _ => eq_refl |}.

(** Scripted assistants: each [process_message] logs the text it was given and
    answers with a canned reply; the getters return canned lists. *)
Module Fake.

Record world := {
  project_reply : AssistantResult;
  habit_reply : AssistantResult;
  pending : list Project;
  active : list Habit;
  seen : list str
}.

Definition log (text : str) (w : world) : world :=
  {| project_reply := project_reply w;
     habit_reply := habit_reply w;
     pending := pending w;
     active := active w;
     seen := text :: seen w |}.

Definition collaborators : Collaborators world :=
  {| ProjectAwareAssistant := fun w => (tt, w);
     HabitAwareAssistant := fun w => (tt, w);
     project_process_message := fun text w => (project_reply w, log text w);
     get_pending_projects := fun w => (pending w, w);
     habit_process_message := fun text w => (habit_reply w, log text w);
     get_active_habits := fun w => (active w, w) |}.

Definition silent : AssistantResult :=
  {| res_action := u "none"; response := None |}.

Definition says (a r : string) : AssistantResult :=
  {| res_action := u a; response := Some (u r) |}.

Definition website : Project :=
  {| project_name := u "Website Redesign";
     phases := [ {| phase_name := u "Planning" |};
                 {| phase_name := u "Design" |};
                 {| phase_name := u "Build" |} ];
     current_phase := 1 |}.

Definition running : Habit :=
  {| habit_name := u "Running"; streak := 4; total := 9 |}.

Definition make (pr hr : AssistantResult) (ps : list Project)
    (hs : list Habit) : world :=
  {| project_reply := pr; habit_reply := hr;
     pending := ps; active := hs; seen := [] |}.

(** The world after both assistants have been asked about [text]. *)
Definition twice_logged (text : str) (w : world) : world :=
  log text (log text w).

(** The worlds of the examples. *)
Definition both_speak : world :=
  make (says "create_project" "P") (says "create_habit" "H")
       [website] [running].


Definition project_null : world :=
  make {| res_action := u "create_project"; response := None |} silent
       [] [].

Definition greeted : world :=
  make (says "create_project" "Got it!") silent [website] [].

Definition idle : world := make silent silent [website] [running].

Definition empty_reply : world :=
  make (says "create_project" "") silent [] [].

End Fake.

(** Further worlds: a project whose [current_phase] has run past its phases,
    and one that counts from the end. *)
Module Scenes.

Definition stale : Project :=
  {| project_name := u "Old Plan";
     phases := [ {| phase_name := u "Draft" |} ];
     current_phase := 7 |}.

Definition backwards : Project :=
  {| project_name := u "Countdown";
     phases := [ {| phase_name := u "Three" |};
                 {| phase_name := u "Two" |};
                 {| phase_name := u "One" |} ];
     current_phase := -1 |}.


Definition stale_second : Fake.world :=
  Fake.make Fake.silent Fake.silent [Fake.website; stale] [Fake.running].

Definition project_only : Fake.world :=
  Fake.make (Fake.says "update_progress" "Noted") Fake.silent
            [Fake.website] [Fake.running].

Definition habits_only : Fake.world :=
  Fake.make Fake.silent Fake.silent [] [Fake.running].

Definition nothing : Fake.world :=
  Fake.make Fake.silent Fake.silent [] [].

End Scenes.

(* ===================================================================== *)
(** ** Vocabulary of the properties *)
(* ===================================================================== *)

Definition project_actions : list str :=
  [u "create_project"; u "update_progress"].

Definition habit_actions : list str :=
  [u "create_habit"; u "log_habit"].

(** The result as it stands after steps 1 and 2 of [detect_and_track]. *)
Definition arbitrate (project_result habit_result : AssistantResult)
  : IntentResult :=
  if in_list (res_action habit_result) habit_actions
  then {| action := res_action habit_result;
          message := response habit_result |}
  else if in_list (res_action project_result) project_actions
  then {| action := res_action project_result;
          message := response project_result |}
  else {| action := u "none"; message := None |}.

(** The result a branch writes when it fires. *)
Definition populated_by (reply : AssistantResult) : IntentResult :=
  {| action := res_action reply; message := response reply |}.

Definition follow_up_result (text : str) : IntentResult :=
  {| action := u "follow_up"; message := Some text |}.

(** [p.phases[p.current_phase]], when the index is in range. *)
Definition phase_at (p : Project) : option Phase :=
  list_getitem (phases p) (current_phase p).

(** The ["progress"] rendering of section 4.1: numerator, slash, denominator. *)
Definition progress_fraction (p : Project) : str :=
  str_of_int (current_phase p + 1) ++ u "/"
    ++ str_of_int (Z.of_nat (List.length (phases p))).

(** [_generate_follow_up] has something to talk about in the world [w]: a
    pending project, or, failing that, an active habit. *)
Definition follow_up_available {W} {C : Collaborators W} (w : W) : Prop :=
  fst (get_pending_projects w) <> [] \/
  fst (get_active_habits (snd (get_pending_projects w))) <> [].

(** The six values the ["action"] entry of a result can take. *)
Definition result_actions : list str :=
  [ u "none"; u "create_project"; u "update_progress";
    u "create_habit"; u "log_habit"; u "follow_up" ].

(** Two calls of an operation in a row, keeping both results. *)
Definition twice {W A} (c : M W A) : M W (A * A) :=
  a <- c ;; b <- c ;; ret (a, b).

(* ===================================================================== *)
(** ** Strings *)
(* ===================================================================== *)

Section Strings.

Lemma starts_with_spec (p s : str) :
  starts_with p s = true <-> exists post, s = p ++ post.
Proof.
  revert s; induction p as [|a p IH]; intros s; simpl.
  - split; [intros _; now exists s | reflexivity].
  - destruct s as [|b s]; simpl.
    + split; [discriminate | intros [post H]; discriminate].
    + rewrite andb_true_iff, N.eqb_eq, IH. split.
      * intros [-> [post ->]]. now exists post.
      * intros [post H]. injection H as -> ->. split; [reflexivity | now exists post].
Qed.

Lemma str_in_spec (p s : str) : str_in p s = true <-> Substring p s.
Proof.
  unfold Substring. induction s as [|b s IH].
  - simpl. rewrite orb_false_r, starts_with_spec. split.
    + intros [post H]. now exists [], post.
    + intros [pre [post H]]. destruct pre; [now exists post | discriminate].
  - cbn [str_in]. rewrite orb_true_iff, starts_with_spec, IH. split.
    + intros [[post H] | [pre [post H]]].
      * now exists [], post.
      * exists (b :: pre), post. simpl. now rewrite H.
    + intros [pre [post H]]. destruct pre as [|c pre]; simpl in H.
      * left. now exists post.
      * right. injection H as _ H. now exists pre, post.
Qed.

Lemma Substring_here (p post : str) : Substring p (p ++ post).
Proof. now exists [], post. Qed.

Lemma Substring_later (p pre s : str) : Substring p s -> Substring p (pre ++ s).
Proof.
  intros [a [b ->]]. exists (pre ++ a), b. now rewrite <- app_assoc.
Qed.

Lemma str_eqb_eq (a b : str) : str_eqb a b = true <-> a = b.
Proof.
  unfold str_eqb. destruct (list_eq_dec N.eq_dec a b); split; congruence.
Qed.

Lemma in_list_spec (x : str) (xs : list str) : in_list x xs = true <-> In x xs.
Proof.
  unfold in_list. rewrite existsb_exists. split.
  - intros [y [Hy E]]. apply str_eqb_eq in E. now subst.
  - intros H. exists x. split; [assumption | now apply str_eqb_eq].
Qed.

Lemma in_list_false (x : str) (xs : list str) :
  in_list x xs = false <-> ~ In x xs.
Proof.
  rewrite <- in_list_spec. destruct (in_list x xs); split; congruence.
Qed.

(** No action belongs to both assistants, and ["none"] and ["follow_up"]
    belong to neither. *)
Lemma actions_disjoint (a : str) :
  In a project_actions -> In a habit_actions -> False.
Proof.
  intros Hp Hh. apply in_list_spec in Hh.
  cbv in Hp. destruct Hp as [<- | [<- | []]]; vm_compute in Hh; discriminate.
Qed.

Lemma truthy_Some (o : option str) :
  truthy o = true -> exists m, o = Some m /\ m <> [].
Proof.
  destruct o as [[|c m]|]; simpl; try discriminate.
  intros _. exists (c :: m). split; [reflexivity | discriminate].
Qed.

(** [str_of_int] writes the decimal numeral of its argument. *)
Lemma str_of_int_numeral (n : Z) :
  option_map Z.of_int
    (NilZero.int_of_string (NilZero.string_of_int (Z.to_int n))) = Some n.
Proof.
  assert (Hnil : forall p, Pos.to_uint p <> Decimal.Nil)
    by apply DecimalPos.Unsigned.to_uint_nonnil.
  rewrite NilZero.isi.
  - simpl. now rewrite DecimalZ.of_to.
  - destruct n as [|p|p]; simpl; try discriminate.
    intros E. injection E as E. now apply (Hnil p).
  - destruct n as [|p|p]; simpl; try discriminate.
    intros E. injection E as E. now apply (Hnil p).
Qed.

End Strings.

(* ===================================================================== *)
(** ** How the operations run *)
(* ===================================================================== *)

Ltac run := unfold bind, call, ret, raise; simpl.

Section Runs.

Context {U : PyUnicode} {W : Type} {C : Collaborators W}.

(** The markers are already in lower case. *)
Lemma lower_pattern (p : str) : In p casual_patterns -> lower p = p.
Proof.
  intros H. rewrite lower_plain.
  - cbv in H.
    repeat (destruct H as [<- | H]; [reflexivity|]). destruct H.
  - cbv in H.
    repeat (destruct H as [<- | H]; [reflexivity|]). destruct H.
Qed.

Lemma is_casual_message_spec (text : str) :
  _is_casual_message text = true <->
  exists p, In p casual_patterns /\ Substring p (lower text).
Proof.
  unfold _is_casual_message. rewrite existsb_exists. split.
  - intros [p [Hp H]]. exists p. split; [assumption|].
    apply str_in_spec in H. now rewrite (lower_pattern p Hp) in H.
  - intros [p [Hp H]]. exists p. split; [assumption|].
    apply str_in_spec. now rewrite (lower_pattern p Hp).
Qed.

Lemma is_casual_message_false (text : str) :
  (forall p, In p casual_patterns -> ~ Substring p (lower text)) ->
  _is_casual_message text = false.
Proof.
  intros H. destruct (_is_casual_message text) eqn:E; [|reflexivity].
  apply is_casual_message_spec in E. destruct E as [p [Hp Hs]].
  now destruct (H p Hp).
Qed.

(** [_generate_follow_up], by cases on what the getters hand back. *)
Lemma generate_follow_up_eq (w : W) :
  _generate_follow_up w =
  let (ps, w1) := get_pending_projects w in
  match ps with
  | p :: _ =>
      match phase_at p with
      | Some ph => Ok (Some (project_follow_up p ph), w1)
      | None => Raise IndexError
      end
  | [] =>
      let (hs, w2) := get_active_habits w1 in
      match hs with
      | h :: _ => Ok (Some (habit_follow_up h), w2)
      | [] => Ok (None, w2)
      end
  end.
Proof.
  unfold _generate_follow_up, getitem, phase_at. run.
  destruct (get_pending_projects w) as [[|p ps] w1].
  - destruct (get_active_habits w1) as [[|h hs] w2]; reflexivity.
  - destruct (list_getitem (phases p) (current_phase p)); reflexivity.
Qed.

(** [detect_and_track]: steps 1 and 2 leave [arbitrate]; step 3 runs only
    while the message is still [None] and the text is casual. *)
Lemma detect_and_track_eq (text : str) (w : W) :
  detect_and_track text w =
  let (pr, w1) := project_process_message text w in
  let (hr, w2) := habit_process_message text w1 in
  let result := arbitrate pr hr in
  if is_None (message result) && _is_casual_message text then
    match _generate_follow_up w2 with
    | Ok (follow_up, w3) =>
        Ok (if truthy follow_up
            then {| action := u "follow_up"; message := follow_up |}
            else result, w3)
    | Raise e => Raise e
    end
  else Ok (result, w2).
Proof.
  unfold detect_and_track, arbitrate, project_actions, habit_actions.
  unfold bind, call, ret. cbv beta zeta.
  destruct (project_process_message text w) as [pr w1].
  destruct (habit_process_message text w1) as [hr w2]. cbv beta iota zeta.
  repeat match goal with
         | |- context [in_list ?a ?l] => destruct (in_list a l)
         end;
    cbn [message];
    (destruct (_ && _is_casual_message text); [|reflexivity]);
    (destruct (_generate_follow_up w2) as [[f w3]|e]; [|reflexivity]);
    destruct (truthy f); reflexivity.
Qed.


Lemma generate_follow_up_truthy (w w' : W) (m : str) :
  _generate_follow_up w = Ok (Some m, w') -> str_truthy m = true.
Proof.
  rewrite generate_follow_up_eq.
  destruct (get_pending_projects w) as [[|p ps] w1].
  - destruct (get_active_habits w1) as [[|h hs] w2]; intros E; inversion E.
    unfold habit_follow_up. destruct (habit_name h); reflexivity.
  - destruct (phase_at p); intros E; inversion E. reflexivity.
Qed.

Lemma project_status_eq (p : Project) (w : W) :
  project_status p w =
  match phase_at p with
  | Some ph => Ok ({| ps_name := project_name p;
                      ps_phase := phase_name ph;
                      ps_progress := progress_fraction p |}, w)
  | None => Raise IndexError
  end.
Proof.
  unfold project_status, getitem, phase_at, bind.
  destruct (list_getitem (phases p) (current_phase p)); reflexivity.
Qed.

(** The list comprehension of [get_status] does not touch the world. *)
Lemma mapM_project_status (ps : list Project) (w : W) :
  match mapM project_status ps w with
  | Ok (es, w') =>
      w' = w /\
      Forall2 (fun p e =>
                 exists ph, phase_at p = Some ph /\
                   e = {| ps_name := project_name p;
                          ps_phase := phase_name ph;
                          ps_progress := progress_fraction p |}) ps es
  | Raise e => e = IndexError /\ Exists (fun p => phase_at p = None) ps
  end.
Proof.
  induction ps as [|p ps IH]; cbn [mapM].
  - split; [reflexivity | constructor].
  - unfold bind. rewrite project_status_eq.
    destruct (phase_at p) as [ph|] eqn:E.
    + destruct (mapM project_status ps w) as [[es w']|e].
      * destruct IH as [-> IH]. split; [reflexivity|].
        constructor; [|assumption]. exists ph. now split.
      * destruct IH as [-> IH]. split; [reflexivity|]. now apply Exists_cons_tl.
    + split; [reflexivity|]. now apply Exists_cons_hd.
Qed.

End Runs.

(* ===================================================================== *)
(** ** Arbitration between the two assistants *)
(* ===================================================================== *)

Section Arbitration.

Context {U : PyUnicode} {W : Type} {C : Collaborators W}.

Lemma follow_up_not_none : u "follow_up" <> u "none".
Proof. discriminate. Qed.

Lemma project_action_not_none (a : str) :
  In a project_actions -> a <> u "none".
Proof. cbv. intros [<- | [<- | []]]; discriminate. Qed.

Lemma habit_action_not_none (a : str) : In a habit_actions -> a <> u "none".
Proof. cbv. intros [<- | [<- | []]]; discriminate. Qed.

Lemma arbitrate_habit (pr hr : AssistantResult) :
  In (res_action hr) habit_actions -> arbitrate pr hr = populated_by hr.
Proof.
  intros H. apply in_list_spec in H. unfold arbitrate. now rewrite H.
Qed.

Lemma arbitrate_silent (pr hr : AssistantResult) :
  ~ In (res_action pr) project_actions ->
  ~ In (res_action hr) habit_actions ->
  arbitrate pr hr = {| action := u "none"; message := None |}.
Proof.
  intros Hp Hh. apply in_list_false in Hp, Hh. unfold arbitrate.
  now rewrite Hh, Hp.
Qed.

(** Whatever [arbitrate] leaves, a message comes with an action, and an
    action comes with a message unless the reply it was taken from had a
    null response. *)
Lemma arbitrate_invariant (pr hr : AssistantResult) :
  (message (arbitrate pr hr) <> None -> action (arbitrate pr hr) <> u "none")
  /\ ((In (res_action pr) project_actions -> response pr <> None) ->
      (In (res_action hr) habit_actions -> response hr <> None) ->
      action (arbitrate pr hr) <> u "none" ->
      message (arbitrate pr hr) <> None).
Proof.
  unfold arbitrate.
  destruct (in_list (res_action hr) habit_actions) eqn:Hh.
  - apply in_list_spec in Hh. simpl. split.
    + intros _. now apply habit_action_not_none.
    + intros _ H _. now apply H.
  - destruct (in_list (res_action pr) project_actions) eqn:Hp.
    + apply in_list_spec in Hp. simpl. split.
      * intros _. now apply project_action_not_none.
      * intros H _ _. now apply H.
    + simpl. split; [congruence|]. intros _ _ H. now destruct H.
Qed.


(** C2 (amended).  When both assistants report a matching action, the result
    is never the project branch's: its action is not the project's action.
    It is the habit branch's result, or, when the habit response is null,
    the follow-up branch's.  A result is returned whenever the habit response
    is not null. *)
Theorem project_never_dominates
    (text : str) (w w1 w2 : W) (pr hr : AssistantResult) :
  project_process_message text w = (pr, w1) ->
  habit_process_message text w1 = (hr, w2) ->
  In (res_action pr) project_actions ->
  In (res_action hr) habit_actions ->
  (response hr <> None ->
   exists r w', detect_and_track text w = Ok (r, w')) /\
  (forall r w', detect_and_track text w = Ok (r, w') ->
     action r <> res_action pr /\
     (r = populated_by hr \/
      (response hr = None /\ exists m, r = follow_up_result m))).
Proof.
  intros Ep Eh Hp Hh.
  assert (Hne : res_action hr <> res_action pr).
  { intros E. rewrite E in Hh. exact (actions_disjoint _ Hp Hh). }
  assert (Hfu : u "follow_up" <> res_action pr).
  { intros E. rewrite <- E in Hp. cbv in Hp.
    destruct Hp as [Hp | [Hp | []]]; discriminate. }
  rewrite detect_and_track_eq, Ep, Eh. cbv zeta.
  rewrite (arbitrate_habit pr hr Hh). simpl. split.
  - intros Hr. destruct (response hr); [|now destruct Hr].
    simpl. eauto.
  - intros r w'. destruct (response hr) as [m|]; simpl.
    + intros E. inversion E; subst. split; [assumption | now left].
    + destruct (_is_casual_message text).
      * destruct (_generate_follow_up w2) as [[f w3]|e]; [|discriminate].
        destruct (truthy f) eqn:Ht; intros E; inversion E; subst.
        -- split; [assumption|]. right. split; [reflexivity|].
           apply truthy_Some in Ht. destruct Ht as [m [-> _]]. now exists m.
        -- split; [assumption | now left].
      * intros E. inversion E; subst. split; [assumption | now left].
Qed.

(** C3 (amended).  In the result of [detect_and_track], a non-null message
    always comes with an action other than [none].  The converse holds when
    every reply that reports a recognised action carries a non-null
    response: then the message is non-null iff the action is not [none]. *)
Theorem message_action_invariant
    (text : str) (w w1 w2 w' : W) (pr hr : AssistantResult)
    (r : IntentResult) :
  project_process_message text w = (pr, w1) ->
  habit_process_message text w1 = (hr, w2) ->
  detect_and_track text w = Ok (r, w') ->
  (message r <> None -> action r <> u "none") /\
  ((In (res_action pr) project_actions -> response pr <> None) ->
   (In (res_action hr) habit_actions -> response hr <> None) ->
   (message r <> None <-> action r <> u "none")).
Proof.
  intros Ep Eh. rewrite detect_and_track_eq, Ep, Eh. cbv zeta.
  destruct (arbitrate_invariant pr hr) as [Hfwd Hbwd].
  assert (Hfu : forall f, truthy f = true ->
            (message {| action := u "follow_up"; message := f |} <> None
             <-> action {| action := u "follow_up"; message := f |} <> u "none")).
  { intros f Ht. apply truthy_Some in Ht. destruct Ht as [m [-> _]]. simpl.
    split; intros _; [apply follow_up_not_none | discriminate]. }
  destruct (is_None (message (arbitrate pr hr)) && _is_casual_message text).
  - destruct (_generate_follow_up w2) as [[f w3]|e]; [|discriminate].
    destruct (truthy f) eqn:Ht; intros E; inversion E; subst.
    + split; [apply Hfu, Ht | intros _ _; apply Hfu, Ht].
    + split; [assumption|]. intros H1 H2. split; [assumption | now apply Hbwd].
  - intros E; inversion E; subst.
    split; [assumption|]. intros H1 H2. split; [assumption | now apply Hbwd].
Qed.

End Arbitration.

(* ===================================================================== *)
(** ** Follow-ups *)
(* ===================================================================== *)

Section FollowUp.

Context {U : PyUnicode} {W : Type} {C : Collaborators W}.

Lemma project_follow_up_names (p : Project) (ph : Phase) :
  Substring (project_name p) (project_follow_up p ph) /\
  Substring (phase_name ph) (project_follow_up p ph).
Proof.
  unfold project_follow_up. split.
  - apply Substring_later, Substring_here.
  - do 3 apply Substring_later. apply Substring_here.
Qed.

Lemma habit_follow_up_names (h : Habit) :
  Substring (habit_name h) (habit_follow_up h) /\
  Substring (str_of_int (streak h)) (habit_follow_up h).
Proof.
  unfold habit_follow_up. split.
  - apply Substring_here.
  - do 2 apply Substring_later. apply Substring_here.
Qed.

(** Step 3 at work: no message yet, a casual text, a pending project. *)
Lemma follow_up_branch
    (text : str) (w w1 w2 w3 : W) (pr hr : AssistantResult)
    (p : Project) (ps : list Project) (ph : Phase) :
  project_process_message text w = (pr, w1) ->
  habit_process_message text w1 = (hr, w2) ->
  message (arbitrate pr hr) = None ->
  _is_casual_message text = true ->
  get_pending_projects w2 = (p :: ps, w3) ->
  phase_at p = Some ph ->
  detect_and_track text w
    = Ok (follow_up_result (project_follow_up p ph), w3).
Proof.
  intros Ep Eh Hnone Hcasual Epending Hphase.
  rewrite detect_and_track_eq, Ep, Eh. cbv zeta.
  rewrite Hnone, Hcasual. cbn [is_None andb].
  rewrite generate_follow_up_eq, Epending, Hphase.
  reflexivity.
Qed.

(** C4 (amended).  On a casual text for which steps 1 and 2 have set no
    message, if the project collaborator has at least one pending project,
    [detect_and_track] returns the action [follow_up] with a message that
    contains the first pending project's name and the name of its phase at
    index [current_phase]. *)
Theorem casual_follow_up_on_pending_project
    (text : str) (w w1 w2 w3 : W) (pr hr : AssistantResult)
    (p : Project) (ps : list Project) (ph : Phase) :
  project_process_message text w = (pr, w1) ->
  habit_process_message text w1 = (hr, w2) ->
  message (arbitrate pr hr) = None ->
  _is_casual_message text = true ->
  get_pending_projects w2 = (p :: ps, w3) ->
  phase_at p = Some ph ->
  detect_and_track text w
    = Ok (follow_up_result (project_follow_up p ph), w3) /\
  Substring (project_name p) (project_follow_up p ph) /\
  Substring (phase_name ph) (project_follow_up p ph).
Proof.
  intros Ep Eh Hnone Hcasual Epending Hphase.
  split; [|apply project_follow_up_names].
  now apply (follow_up_branch text w w1 w2 w3 pr hr p ps ph).
Qed.

(** C5.  When neither assistant reports a recognised action and the
    lower-cased text contains none of the casual markers, [detect_and_track]
    returns exactly [{action: none, message: null}]. *)
Theorem silent_and_not_casual
    (text : str) (w w1 w2 : W) (pr hr : AssistantResult) :
  project_process_message text w = (pr, w1) ->
  habit_process_message text w1 = (hr, w2) ->
  ~ In (res_action pr) project_actions ->
  ~ In (res_action hr) habit_actions ->
  (forall p, In p casual_patterns -> ~ Substring p (lower text)) ->
  detect_and_track text w = Ok ({| action := u "none"; message := None |}, w2).
Proof.
  intros Ep Eh Hp Hh Hmarkers.
  rewrite detect_and_track_eq, Ep, Eh. cbv zeta.
  rewrite (arbitrate_silent pr hr Hp Hh).
  rewrite (is_casual_message_false text Hmarkers).
  reflexivity.
Qed.

(** C6.  [_generate_follow_up] prefers projects over habits.  With a pending
    project it formats its message from the first one and that project's
    phase at [current_phase] (the lookup of a phase that is not there raises
    [IndexError]), whatever the habits are, and the habits are not asked for.
    With no pending project and an active habit it formats its message from
    the first habit, with its name and streak.  With neither it returns
    [None]. *)
Theorem follow_up_prefers_projects
    (w w1 w2 : W) (ps : list Project) (hs : list Habit) :
  get_pending_projects w = (ps, w1) ->
  get_active_habits w1 = (hs, w2) ->
  match ps, hs with
  | p :: _, _ =>
      match phase_at p with
      | Some ph =>
          _generate_follow_up w = Ok (Some (project_follow_up p ph), w1) /\
          Substring (project_name p) (project_follow_up p ph) /\
          Substring (phase_name ph) (project_follow_up p ph)
      | None => _generate_follow_up w = Raise IndexError
      end
  | [], h :: _ =>
      _generate_follow_up w = Ok (Some (habit_follow_up h), w2) /\
      Substring (habit_name h) (habit_follow_up h) /\
      Substring (str_of_int (streak h)) (habit_follow_up h)
  | [], [] => _generate_follow_up w = Ok (None, w2)
  end.
Proof.
  intros Ep Eh. rewrite generate_follow_up_eq, Ep.
  destruct ps as [|p ps].
  - rewrite Eh. destruct hs as [|h hs]; [reflexivity|].
    split; [reflexivity | apply habit_follow_up_names].
  - destruct (phase_at p) as [ph|]; [|reflexivity].
    split; [reflexivity | apply project_follow_up_names].
Qed.

End FollowUp.

(* ===================================================================== *)
(** ** Status *)
(* ===================================================================== *)

Section Status.

Context {U : PyUnicode} {W : Type} {C : Collaborators W}.

Lemma get_status_eq (w : W) :
  get_status w =
  let (ps, w1) := get_pending_projects w in
  let (hs, w2) := get_active_habits w1 in
  match mapM project_status ps w2 with
  | Ok (es, w3) =>
      Ok ({| active_projects := Z.of_nat (List.length ps);
             active_habits := Z.of_nat (List.length hs);
             projects := es;
             habits := map habit_status hs |}, w3)
  | Raise e => Raise e
  end.
Proof.
  unfold get_status, bind, call, ret.
  destruct (get_pending_projects w) as [ps w1].
  destruct (get_active_habits w1) as [hs w2].
  destruct (mapM project_status ps w2) as [[es w3]|e]; reflexivity.
Qed.

(** C7.  In the snapshot [get_status] returns, the entry of every pending
    project has as progress the numeral of [current_phase + 1], a slash and
    the numeral of the number of phases (phase 0 of 3 phases gives ["1/3"]),
    and as phase the name of the phase descriptor at index [current_phase].
    A snapshot is returned whenever every pending project has such a
    phase. *)
Theorem status_project_entries (w w1 : W) (ps : list Project) :
  get_pending_projects w = (ps, w1) ->
  (Forall (fun p => phase_at p <> None) ps ->
   exists snap w', get_status w = Ok (snap, w')) /\
  (forall snap w', get_status w = Ok (snap, w') ->
     Forall2 (fun p e =>
                ps_progress e
                  = str_of_int (current_phase p + 1) ++ u "/"
                      ++ str_of_int (Z.of_nat (List.length (phases p))) /\
                exists ph, list_getitem (phases p) (current_phase p) = Some ph
                           /\ ps_phase e = phase_name ph)
             ps (projects snap)) /\
  (forall p, current_phase p = 0 -> List.length (phases p) = 3%nat ->
     str_of_int (current_phase p + 1) ++ u "/"
       ++ str_of_int (Z.of_nat (List.length (phases p))) = u "1/3").
Proof.
  intros Ep. rewrite get_status_eq, Ep.
  destruct (get_active_habits w1) as [hs w2].
  pose proof (mapM_project_status ps w2) as HM.
  destruct (mapM project_status ps w2) as [[es w3]|e].
  - destruct HM as [-> HM]. split; [eauto|]. split.
    + intros snap w' E. inversion E; subst. simpl.
      eapply Forall2_impl; [|exact HM]. simpl.
      intros p e [ph [Hph ->]]. split; [reflexivity|]. now exists ph.
    + intros p -> ->. reflexivity.
  - destruct HM as [_ HM]. split; [|split].
    + intros Hall. exfalso. rewrite Forall_forall in Hall.
      apply Exists_exists in HM. destruct HM as [p [Hin Hp]].
      exact (Hall p Hin Hp).
    + discriminate.
    + intros p -> ->. reflexivity.
Qed.

(** C8.  When asking the collaborators for their items leaves the world as
    it is, two calls of [get_status] in a row return equal snapshots (or both
    raise), and the world after them is the world before. *)
Theorem get_status_repeatable (w : W) :
  snd (get_pending_projects w) = w ->
  snd (get_active_habits w) = w ->
  twice get_status w =
  match get_status w with
  | Ok (snap, _) => Ok ((snap, snap), w)
  | Raise e => Raise e
  end.
Proof.
  intros Hp Hh. unfold twice, bind, ret.
  assert (Hsame : match get_status w with
                  | Ok (_, w') => w' = w
                  | Raise _ => True
                  end).
  { rewrite get_status_eq.
    destruct (get_pending_projects w) as [ps w1]. simpl in Hp. subst w1.
    destruct (get_active_habits w) as [hs w2]. simpl in Hh. subst w2.
    pose proof (mapM_project_status ps w) as HM.
    destruct (mapM project_status ps w) as [[es w3]|e]; [apply HM | exact I]. }
  destruct (get_status w) as [[snap w']|e] eqn:E; [|reflexivity].
  subst w'. rewrite E. reflexivity.
Qed.

End Status.

(* ===================================================================== *)
(** ** Casual markers are substrings *)
(* ===================================================================== *)

Section Casual.

Context {U : PyUnicode}.

#[local] Existing Instance Fake.collaborators.

Lemma casual_by_marker (marker text : str) :
  In marker casual_patterns ->
  forallb plain_cp text = true ->
  str_in marker (map ascii_lower text) = true ->
  _is_casual_message text = true.
Proof.
  intros Hin Hplain Hsub. apply is_casual_message_spec.
  exists marker. split; [assumption|].
  rewrite (lower_plain text Hplain). now apply str_in_spec.
Qed.

(** C9.  The casual test is a case-insensitive substring test.  The text
    ["this"] is not a marker, yet it is casual, in any letter case, because
    it contains ["hi"]; with both assistants silent and a project pending,
    [detect_and_track] answers it with a follow-up. *)
Theorem this_is_casual :
  _is_casual_message (u "this") = true /\
  _is_casual_message (u "THIS") = true /\
  ~ In (u "this") casual_patterns /\
  let w := Fake.make Fake.silent Fake.silent [Fake.website] [] in
  let (pr, w1) := project_process_message (u "this") w in
  let (hr, w2) := habit_process_message (u "this") w1 in
  ~ In (res_action pr) project_actions /\
  ~ In (res_action hr) habit_actions /\
  exists m, detect_and_track (u "this") w = Ok (follow_up_result m, w2).
Proof.
  assert (Hthis : _is_casual_message (u "this") = true)
    by (apply (casual_by_marker (u "hi")); [cbv; tauto | reflexivity..]).
  split; [exact Hthis|].
  split; [apply (casual_by_marker (u "hi")); [cbv; tauto | reflexivity..]|].
  split.
  - cbv. intros H.
    repeat (destruct H as [H | H]; [discriminate|]). exact H.
  - cbn [project_process_message habit_process_message Fake.collaborators].
    split; [|split].
    + apply in_list_false. reflexivity.
    + apply in_list_false. reflexivity.
    + eexists.
      eapply (follow_up_branch (u "this")); try reflexivity.
      exact Hthis.
Qed.

End Casual.

(* ===================================================================== *)
(** ** [process_text] *)
(* ===================================================================== *)

Section ProcessText.

Context {U : PyUnicode} {W : Type} {C : Collaborators W}.

(** C10.  [process_text] hands back the message of [detect_and_track] only
    when it is a non-empty string.  For the empty string it returns [None],
    as it does when there is no message at all. *)
Theorem process_text_truthiness
    (text : str) (w wa wb w' : W) (r : IntentResult) :
  ProjectAwareAssistant w = (tt, wa) ->
  HabitAwareAssistant wa = (tt, wb) ->
  detect_and_track text wb = Ok (r, w') ->
  (message r = Some [] -> process_text text w = Ok (None, w')) /\
  (message r = None -> process_text text w = Ok (None, w')) /\
  (forall m, message r = Some m -> m <> [] ->
     process_text text w = Ok (Some m, w')).
Proof.
  intros Ea Eb Ed.
  assert (E : process_text text w =
              Ok (if truthy (message r) then message r else None, w')).
  { unfold process_text, SafeClawIntentBridge, bind, call, ret.
    rewrite Ea, Eb, Ed. destruct (truthy (message r)); reflexivity. }
  rewrite E. repeat split.
  - intros ->. reflexivity.
  - intros ->. reflexivity.
  - intros m -> Hm. destruct m; [now destruct Hm | reflexivity].
Qed.

End ProcessText.

(* ===================================================================== *)
(** ** The properties at work on the scripted assistants *)
(* ===================================================================== *)

Section Examples.

Import Fake.

#[local] Existing Instance ascii_unicode.
#[local] Existing Instance Fake.collaborators.



Lemma project_never_dominates_witness :
  exists r w',
    detect_and_track (u "x") both_speak = Ok (r, w') /\
    action r <> u "create_project" /\
    r = {| action := u "create_habit"; message := Some (u "H") |}.
Proof.
  edestruct (project_never_dominates (u "x") both_speak
               (log (u "x") both_speak) (twice_logged (u "x") both_speak)
               (says "create_project" "P") (says "create_habit" "H"))
    as [Hreturns H]; [reflexivity | reflexivity | cbv; tauto | cbv; tauto |].
  destruct Hreturns as [r [w' E]]; [discriminate|].
  exists r, w'. split; [exact E|].
  destruct (H r w' E) as [Hne [Hr | [Hnull _]]].
  - split; [exact Hne | exact Hr].
  - discriminate Hnull.
Defined.

(** C2 as stated fails: both assistants speak, and the result is not the one
    the project branch wrote. *)
Lemma project_reply_is_overwritten :
  let w := both_speak in
  let (pr, w1) := project_process_message (u "x") w in
  let (hr, w2) := habit_process_message (u "x") w1 in
  In (res_action pr) project_actions /\
  In (res_action hr) habit_actions /\
  detect_and_track (u "x") w = Ok (populated_by hr, w2) /\
  ~ exists w', detect_and_track (u "x") w = Ok (populated_by pr, w').
Proof.
  cbn [project_process_message habit_process_message Fake.collaborators].
  split; [cbv; tauto|]. split; [cbv; tauto|].
  assert (E : detect_and_track (u "x") both_speak
              = Ok (populated_by (says "create_habit" "H"),
                    twice_logged (u "x") both_speak)) by reflexivity.
  split; [exact E|]. rewrite E. intros [w' H]. inversion H.
Qed.

Lemma message_action_invariant_witness :
  let r := follow_up_result
             (project_follow_up website {| phase_name := u "Design" |}) in
  detect_and_track (u "hi") idle = Ok (r, twice_logged (u "hi") idle) /\
  (message r <> None <-> action r <> u "none").
Proof.
  split; [reflexivity|].
  apply (message_action_invariant (u "hi") idle
           (log (u "hi") idle) (twice_logged (u "hi") idle)
           (twice_logged (u "hi") idle) silent silent
           (follow_up_result (project_follow_up website
                                {| phase_name := u "Design" |}))).
  - reflexivity.
  - reflexivity.
  - reflexivity.
  - cbv. intros [H | [H | []]]; discriminate H.
  - cbv. intros [H | [H | []]]; discriminate H.
Defined.

(** C3 as stated fails: the project assistant reports [create_project] with
    a null response on a text that is not casual; the result has an action
    and no message. *)
Lemma action_without_message :
  exists r w',
    detect_and_track (u "x") project_null = Ok (r, w') /\
    action r = u "create_project" /\ message r = None /\
    ~ (message r <> None <-> action r <> u "none").
Proof.
  exists {| action := u "create_project"; message := None |},
         (twice_logged (u "x") project_null).
  split; [reflexivity|]. split; [reflexivity|]. split; [reflexivity|].
  simpl. intros [_ H]. apply H; [discriminate | reflexivity].
Qed.

(** Section 8 of the specification: ["hi"] with "Website Redesign" pending
    at phase 1 of Planning, Design, Build. *)
Lemma casual_follow_up_witness :
  detect_and_track (u "hi") idle
  = Ok (follow_up_result
          (project_follow_up website {| phase_name := u "Design" |}),
        twice_logged (u "hi") idle) /\
  Substring (u "Website Redesign")
    (project_follow_up website {| phase_name := u "Design" |}) /\
  Substring (u "Design")
    (project_follow_up website {| phase_name := u "Design" |}).
Proof.
  apply (casual_follow_up_on_pending_project (u "hi") idle
           (log (u "hi") idle) (twice_logged (u "hi") idle)
           (twice_logged (u "hi") idle) silent silent
           website [] {| phase_name := u "Design" |}).
  - reflexivity.
  - reflexivity.
  - reflexivity.
  - vm_compute. reflexivity.
  - reflexivity.
  - reflexivity.
Defined.

Lemma website_follow_up_text :
  project_follow_up website {| phase_name := u "Design" |}
  = u "对了，Website Redesign进展怎么样啦？Design阶段有什么需要帮忙的吗？".
Proof. vm_compute. reflexivity. Qed.

(** C4 as stated fails: ["hi"] is casual and a project is pending, but the
    project assistant has reported [create_project] with a message, so step
    3 does not run and the action is not [follow_up]. *)
Lemma casual_text_with_intent_gets_no_follow_up :
  let w := greeted in
  let (pr, w1) := project_process_message (u "hi") w in
  let (hr, w2) := habit_process_message (u "hi") w1 in
  _is_casual_message (u "hi") = true /\
  fst (get_pending_projects w2) = [website] /\
  phase_at website = Some {| phase_name := u "Design" |} /\
  detect_and_track (u "hi") w
    = Ok ({| action := u "create_project"; message := Some (u "Got it!") |},
          w2) /\
  ~ exists r w', detect_and_track (u "hi") w = Ok (r, w') /\
                 action r = u "follow_up".
Proof.
  cbn [project_process_message habit_process_message Fake.collaborators].
  split; [reflexivity|]. split; [reflexivity|]. split; [reflexivity|].
  assert (E : detect_and_track (u "hi") greeted
              = Ok ({| action := u "create_project";
                       message := Some (u "Got it!") |},
                    twice_logged (u "hi") greeted)) by reflexivity.
  split; [exact E|]. rewrite E. intros [r [w' [H Ha]]].
  inversion H; subst r. discriminate Ha.
Qed.

Lemma silent_and_not_casual_witness :
  detect_and_track (u "what") idle
  = Ok ({| action := u "none"; message := None |},
        twice_logged (u "what") idle).
Proof.
  apply (silent_and_not_casual (u "what") idle
           (log (u "what") idle) (twice_logged (u "what") idle)
           silent silent).
  - reflexivity.
  - reflexivity.
  - cbv. intros [H | [H | []]]; discriminate H.
  - cbv. intros [H | [H | []]]; discriminate H.
  - intros p Hp Hs. apply str_in_spec in Hs. cbv in Hp.
    repeat (destruct Hp as [<- | Hp]; [vm_compute in Hs; discriminate Hs|]).
    exact Hp.
Defined.

Lemma follow_up_prefers_projects_witness :
  _generate_follow_up idle
  = Ok (Some (project_follow_up website {| phase_name := u "Design" |}),
        idle) /\
  _generate_follow_up (make silent silent [] [running])
  = Ok (Some (u "Running连续4天了！今天做了吗？"),
        make silent silent [] [running]).
Proof.
  split.
  - apply (follow_up_prefers_projects idle idle idle [website] [running]);
      reflexivity.
  - apply (follow_up_prefers_projects (make silent silent [] [running])
             (make silent silent [] [running])
             (make silent silent [] [running]) [] [running]);
      reflexivity.
Defined.

Lemma status_project_entries_witness :
  exists snap w',
    get_status idle = Ok (snap, w') /\
    Forall2 (fun p e =>
               ps_progress e
                 = str_of_int (current_phase p + 1) ++ u "/"
                     ++ str_of_int (Z.of_nat (List.length (phases p))) /\
               exists ph, list_getitem (phases p) (current_phase p) = Some ph
                          /\ ps_phase e = phase_name ph)
            [website] (projects snap).
Proof.
  edestruct (status_project_entries idle idle [website])
    as [Hreturns [Hentries _]]; [reflexivity|].
  destruct Hreturns as [snap [w' E]].
  - repeat constructor. discriminate.
  - exists snap, w'. split; [exact E | exact (Hentries snap w' E)].
Defined.

Lemma website_status :
  get_status idle
  = Ok ({| active_projects := 1;
           active_habits := 1;
           projects := [ {| ps_name := u "Website Redesign";
                            ps_phase := u "Design";
                            ps_progress := u "2/3" |} ];
           habits := [ {| hs_name := u "Running";
                          hs_streak := 4; hs_total := 9 |} ] |},
        idle).
Proof. reflexivity. Qed.

Lemma get_status_repeatable_witness :
  exists snap, twice get_status idle = Ok ((snap, snap), idle).
Proof.
  eexists.
  rewrite (get_status_repeatable idle); reflexivity.
Defined.

Lemma process_text_truthiness_witness :
  detect_and_track (u "x") empty_reply
  = Ok ({| action := u "create_project"; message := Some [] |},
        twice_logged (u "x") empty_reply) /\
  process_text (u "x") empty_reply
  = Ok (None, twice_logged (u "x") empty_reply).
Proof.
  split; [reflexivity|].
  edestruct (process_text_truthiness (u "x") empty_reply empty_reply
               empty_reply (twice_logged (u "x") empty_reply)
               {| action := u "create_project"; message := Some [] |})
    as [Hempty _]; [reflexivity | reflexivity | reflexivity |].
  apply Hempty. reflexivity.
Defined.

End Examples.

(* ===================================================================== *)
(** ** More on [detect_and_track] *)
(* ===================================================================== *)

Section Detection.

Context {U : PyUnicode} {W : Type} {C : Collaborators W}.

Lemma arbitrate_project (pr hr : AssistantResult) :
  In (res_action pr) project_actions ->
  ~ In (res_action hr) habit_actions ->
  arbitrate pr hr = populated_by pr.
Proof.
  intros Hp Hh. apply in_list_spec in Hp. apply in_list_false in Hh.
  unfold arbitrate. now rewrite Hh, Hp.
Qed.

(** What steps 1 and 2 leave is one of three things. *)
Lemma arbitrate_cases (pr hr : AssistantResult) :
  (arbitrate pr hr = {| action := u "none"; message := None |} /\
   ~ In (res_action pr) project_actions /\
   ~ In (res_action hr) habit_actions) \/
  (arbitrate pr hr = populated_by pr /\
   In (res_action pr) project_actions /\
   ~ In (res_action hr) habit_actions) \/
  (arbitrate pr hr = populated_by hr /\ In (res_action hr) habit_actions).
Proof.
  destruct (in_list (res_action hr) habit_actions) eqn:Hh.
  - apply in_list_spec in Hh. right. right.
    split; [now apply arbitrate_habit | assumption].
  - apply in_list_false in Hh.
    destruct (in_list (res_action pr) project_actions) eqn:Hp.
    + apply in_list_spec in Hp. right. left.
      split; [now apply arbitrate_project | now split].
    + apply in_list_false in Hp. left.
      split; [now apply arbitrate_silent | now split].
Qed.

Lemma recognised_in_result_actions (a : str) :
  In a project_actions \/ In a habit_actions -> In a result_actions.
Proof.
  cbv. intros [[<- | [<- | []]] | [<- | [<- | []]]]; tauto.
Qed.

Lemma arbitrate_not_follow_up (pr hr : AssistantResult) :
  action (arbitrate pr hr) <> u "follow_up".
Proof.
  destruct (arbitrate_cases pr hr) as [[-> _] | [[-> [H _]] | [-> H]]];
    cbn [action populated_by].
  - discriminate.
  - intros E. rewrite E in H. cbv in H.
    destruct H as [H | [H | []]]; discriminate H.
  - intros E. rewrite E in H. cbv in H.
    destruct H as [H | [H | []]]; discriminate H.
Qed.

(** [_generate_follow_up] answers with a text exactly when there is a pending
    project whose phase is there, or no pending project and an active
    habit. *)
Lemma generate_follow_up_cases (w : W) :
  match _generate_follow_up w with
  | Ok (Some m, _) => m <> [] /\ follow_up_available w
  | Ok (None, _) => ~ follow_up_available w
  | Raise e =>
      e = IndexError /\
      exists p ps w1, get_pending_projects w = (p :: ps, w1) /\
                      phase_at p = None
  end.
Proof.
  rewrite generate_follow_up_eq. unfold follow_up_available.
  destruct (get_pending_projects w) as [[|p ps] w1]; cbn [fst snd].
  - destruct (get_active_habits w1) as [[|h hs] w2]; cbn [fst].
    + intros [H | H]; now destruct H.
    + split; [|right; discriminate].
      unfold habit_follow_up. destruct (habit_name h); discriminate.
  - destruct (phase_at p) as [ph|] eqn:E.
    + split; [discriminate | left; discriminate].
    + split; [reflexivity|]. now exists p, ps, w1.
Qed.

(** X1.  When only the project assistant reports a recognised action, its reply
    is the result, provided the response is not null or the text is not
    casual. *)
Theorem project_reply_stands
    (text : str) (w w1 w2 : W) (pr hr : AssistantResult) :
  project_process_message text w = (pr, w1) ->
  habit_process_message text w1 = (hr, w2) ->
  In (res_action pr) project_actions ->
  ~ In (res_action hr) habit_actions ->
  response pr <> None \/ _is_casual_message text = false ->
  detect_and_track text w = Ok (populated_by pr, w2).
Proof.
  intros Ep Eh Hp Hh Hguard.
  rewrite detect_and_track_eq, Ep, Eh. cbv zeta.
  rewrite (arbitrate_project pr hr Hp Hh). cbn [populated_by message].
  destruct Hguard as [Hr | Hc].
  - destruct (response pr); [reflexivity | now destruct Hr].
  - rewrite Hc, andb_false_r. reflexivity.
Qed.

(** X2.  Every result has one of four shapes: nothing, the project reply (only
    when the habit assistant reported nothing recognised), the habit reply,
    or a non-empty follow-up.  An action the assistants report outside their
    own two is never passed on: the action of a result is one of six. *)
Theorem result_shapes
    (text : str) (w w1 w2 w' : W) (pr hr : AssistantResult)
    (r : IntentResult) :
  project_process_message text w = (pr, w1) ->
  habit_process_message text w1 = (hr, w2) ->
  detect_and_track text w = Ok (r, w') ->
  ((r = {| action := u "none"; message := None |} /\
    ~ In (res_action pr) project_actions /\
    ~ In (res_action hr) habit_actions) \/
   (r = populated_by pr /\ In (res_action pr) project_actions /\
    ~ In (res_action hr) habit_actions) \/
   (r = populated_by hr /\ In (res_action hr) habit_actions) \/
   (exists m, r = follow_up_result m /\ m <> [] /\
              message (arbitrate pr hr) = None /\
              _is_casual_message text = true)) /\
  In (action r) result_actions.
Proof.
  intros Ep Eh. rewrite detect_and_track_eq, Ep, Eh. cbv zeta.
  assert (Harb : forall w0, Ok (arbitrate pr hr, w0) = Ok (r, w') ->
            ((r = {| action := u "none"; message := None |} /\
              ~ In (res_action pr) project_actions /\
              ~ In (res_action hr) habit_actions) \/
             (r = populated_by pr /\ In (res_action pr) project_actions /\
              ~ In (res_action hr) habit_actions) \/
             (r = populated_by hr /\ In (res_action hr) habit_actions) \/
             (exists m, r = follow_up_result m /\ m <> [] /\
                        message (arbitrate pr hr) = None /\
                        _is_casual_message text = true)) /\
            In (action r) result_actions).
  { intros w0 E. inversion E; subst r.
    destruct (arbitrate_cases pr hr) as [[-> H] | [[-> H] | [-> H]]].
    - split; [left; now split | cbv; tauto].
    - split; [right; left; now split|].
      apply recognised_in_result_actions. left. apply H.
    - split; [right; right; left; now split|].
      apply recognised_in_result_actions. right. apply H. }
  destruct (is_None (message (arbitrate pr hr))) eqn:Hnone;
    [|now apply Harb].
  destruct (_is_casual_message text) eqn:Hcasual; [|now apply Harb].
  cbn [andb].
  pose proof (generate_follow_up_cases w2) as Hg.
  destruct (_generate_follow_up w2) as [[[m|] w3]|e]; [| |discriminate].
  - destruct Hg as [Hm _].
    assert (Ht : truthy (Some m) = true) by (destruct m; [now destruct Hm | reflexivity]).
    rewrite Ht. intros E. inversion E; subst r. split; [|cbv; tauto].
    right. right. right. exists m. repeat split; try assumption.
    destruct (message (arbitrate pr hr)); [discriminate | reflexivity].
  - cbn [truthy]. now apply Harb.
Qed.


(** X4.  A result is a follow-up exactly when steps 1 and 2 left no message, the
    text is casual and there is a pending project or an active habit. *)
Theorem follow_up_exactly_when
    (text : str) (w w1 w2 w' : W) (pr hr : AssistantResult)
    (r : IntentResult) :
  project_process_message text w = (pr, w1) ->
  habit_process_message text w1 = (hr, w2) ->
  detect_and_track text w = Ok (r, w') ->
  (action r = u "follow_up" <->
   message (arbitrate pr hr) = None /\
   _is_casual_message text = true /\
   follow_up_available w2).
Proof.
  intros Ep Eh. rewrite detect_and_track_eq, Ep, Eh. cbv zeta.
  pose proof (arbitrate_not_follow_up pr hr) as Hnf.
  destruct (message (arbitrate pr hr)) as [m0|] eqn:Hmsg; cbn [is_None andb].
  - intros E. inversion E; subst r.
    split; [intros H; now destruct Hnf | intros [H _]; discriminate H].
  - destruct (_is_casual_message text).
    + pose proof (generate_follow_up_cases w2) as Hg.
      destruct (_generate_follow_up w2) as [[[m|] w3]|e]; [| |discriminate].
      * destruct Hg as [Hm Hav].
        assert (Ht : truthy (Some m) = true)
          by (destruct m; [now destruct Hm | reflexivity]).
        rewrite Ht. intros E. inversion E; subst r. cbn [action].
        split; [intros _; now repeat split | reflexivity].
      * cbn [truthy]. intros E. inversion E; subst r.
        split; [intros H; now destruct Hnf | intros [_ [_ H]]; now destruct Hg].
    + intros E. inversion E; subst r.
      split; [intros H; now destruct Hnf | intros [_ [H _]]; discriminate H].
Qed.

(** X5.  With no pending project, a casual text that brought no message is
    answered with the first active habit: its name and its streak are in the
    message. *)
Theorem casual_follow_up_on_active_habit
    (text : str) (w w1 w2 w3 w4 : W) (pr hr : AssistantResult)
    (h : Habit) (hs : list Habit) :
  project_process_message text w = (pr, w1) ->
  habit_process_message text w1 = (hr, w2) ->
  message (arbitrate pr hr) = None ->
  _is_casual_message text = true ->
  get_pending_projects w2 = ([], w3) ->
  get_active_habits w3 = (h :: hs, w4) ->
  detect_and_track text w = Ok (follow_up_result (habit_follow_up h), w4) /\
  Substring (habit_name h) (habit_follow_up h) /\
  Substring (str_of_int (streak h)) (habit_follow_up h).
Proof.
  intros Ep Eh Hnone Hcasual Epending Eactive.
  split; [|apply habit_follow_up_names].
  rewrite detect_and_track_eq, Ep, Eh. cbv zeta.
  rewrite Hnone, Hcasual. cbn [is_None andb].
  rewrite generate_follow_up_eq, Epending, Eactive.
  assert (Ht : truthy (Some (habit_follow_up h)) = true)
    by (unfold habit_follow_up; cbn [truthy];
        destruct (habit_name h); reflexivity).
  rewrite Ht. reflexivity.
Qed.

End Detection.

(* ===================================================================== *)
(** ** More on [get_status] *)
(* ===================================================================== *)

Section StatusEntries.

Context {U : PyUnicode} {W : Type} {C : Collaborators W}.

(** Indexing, by the bounds: outside [-len .. len-1] there is nothing, inside
    the element is the one at the index taken modulo the length. *)
Lemma list_getitem_bounds {A} (l : list A) (i : Z) :
  let n := Z.of_nat (List.length l) in
  (list_getitem l i = None <-> i < - n \/ n <= i) /\
  (- n <= i < n ->
   exists a, nth_error l (Z.to_nat (i mod n)) = Some a /\
             list_getitem l i = Some a).
Proof.
  cbv zeta. unfold list_getitem. set (n := Z.of_nat (List.length l)).
  destruct (i <? 0) eqn:Hneg;
    [apply Z.ltb_lt in Hneg | apply Z.ltb_ge in Hneg].
  - destruct ((0 <=? i + n) && (i + n <? n)) eqn:Hin.
    + apply andb_true_iff in Hin. destruct Hin as [H0 H1].
      apply Z.leb_le in H0. apply Z.ltb_lt in H1.
      assert (Hmod : i mod n = i + n).
      { symmetry. apply (Z.mod_unique i n (-1) (i + n)); lia. }
      assert (Hlt : (Z.to_nat (i + n) < List.length l)%nat) by lia.
      apply nth_error_Some in Hlt.
      destruct (nth_error l (Z.to_nat (i + n))) as [a|] eqn:Ea;
        [|now destruct Hlt].
      split.
      * split; [discriminate | lia].
      * intros _. exists a. rewrite Hmod. now split.
    + apply andb_false_iff in Hin.
      split; [split; [lia | reflexivity]|].
      intros Hr. exfalso.
      destruct Hin as [H | H];
        [apply Z.leb_gt in H | apply Z.ltb_ge in H]; lia.
  - destruct ((0 <=? i) && (i <? n)) eqn:Hin.
    + apply andb_true_iff in Hin. destruct Hin as [H0 H1].
      apply Z.leb_le in H0. apply Z.ltb_lt in H1.
      assert (Hmod : i mod n = i) by (apply Z.mod_small; lia).
      assert (Hlt : (Z.to_nat i < List.length l)%nat) by lia.
      apply nth_error_Some in Hlt.
      destruct (nth_error l (Z.to_nat i)) as [a|] eqn:Ea;
        [|now destruct Hlt].
      split.
      * split; [discriminate | lia].
      * intros _. exists a. rewrite Hmod. now split.
    + apply andb_false_iff in Hin.
      split; [split; [lia | reflexivity]|].
      intros Hr. exfalso.
      destruct Hin as [H | H];
        [apply Z.leb_gt in H | apply Z.ltb_ge in H]; lia.
Qed.

Lemma entries_follow_projects (ps : list Project) (es : list ProjectStatus) :
  Forall2 (fun p e =>
             exists ph, phase_at p = Some ph /\
               e = {| ps_name := project_name p;
                      ps_phase := phase_name ph;
                      ps_progress := progress_fraction p |}) ps es ->
  List.length es = List.length ps /\
  map ps_name es = map project_name ps /\
  Forall (fun p => phase_at p <> None) ps.
Proof.
  induction 1 as [|p e ps es [ph [Hph ->]] _ [IHl [IHn IHv]]]; simpl.
  - repeat split. constructor.
  - split; [now rewrite IHl|]. split; [now rewrite IHn|].
    constructor; [congruence | assumption].
Qed.

(** X6.  The snapshot is consistent: each count is the length of its list, the
    entries come in the collaborators' order with their names, streaks and
    totals, and the world is the one the two getters left. *)
Theorem status_counts_and_order
    (w w1 w2 w' : W) (ps : list Project) (hs : list Habit)
    (snap : StatusSnapshot) :
  get_pending_projects w = (ps, w1) ->
  get_active_habits w1 = (hs, w2) ->
  get_status w = Ok (snap, w') ->
  w' = w2 /\
  active_projects snap = Z.of_nat (List.length (projects snap)) /\
  active_habits snap = Z.of_nat (List.length (habits snap)) /\
  map ps_name (projects snap) = map project_name ps /\
  map hs_name (habits snap) = map habit_name hs /\
  map hs_streak (habits snap) = map streak hs /\
  map hs_total (habits snap) = map total hs.
Proof.
  intros Ep Eh. rewrite get_status_eq, Ep, Eh.
  pose proof (mapM_project_status ps w2) as HM.
  destruct (mapM project_status ps w2) as [[es w3]|e]; [|discriminate].
  destruct HM as [-> HM]. apply entries_follow_projects in HM.
  destruct HM as [Hlen [Hnames _]].
  intros E. inversion E; subst. cbn.
  rewrite Hlen, length_map, !map_map. cbn.
  repeat split; assumption || reflexivity.
Qed.


(** X8.  The bounds of [current_phase].  An entry cannot be built when the index
    is below [-len(phases)] or at least [len(phases)].  Anywhere in between,
    also below zero, it is built from the phase at the index modulo the
    number of phases. *)
Theorem project_status_bounds (p : Project) (w : W) :
  let n := Z.of_nat (List.length (phases p)) in
  (project_status p w = Raise IndexError <->
   current_phase p < - n \/ n <= current_phase p) /\
  (- n <= current_phase p < n ->
   exists ph,
     nth_error (phases p) (Z.to_nat (current_phase p mod n)) = Some ph /\
     project_status p w
     = Ok ({| ps_name := project_name p;
              ps_phase := phase_name ph;
              ps_progress :=
                str_of_int (current_phase p + 1) ++ u "/" ++ str_of_int n |},
           w)).
Proof.
  cbv zeta. rewrite project_status_eq. unfold phase_at.
  destruct (list_getitem_bounds (phases p) (current_phase p)) as [Hout Hin].
  split.
  - rewrite <- Hout.
    destruct (list_getitem (phases p) (current_phase p));
      split; congruence.
  - intros Hr. destruct (Hin Hr) as [ph [Hnth ->]].
    exists ph. split; [assumption | reflexivity].
Qed.

End StatusEntries.

(* ===================================================================== *)
(** ** Reading a progress back *)
(* ===================================================================== *)

Section Progress.

Context {U : PyUnicode} {W : Type} {C : Collaborators W}.

Lemma str_of_int_inj (m n : Z) : str_of_int m = str_of_int n -> m = n.
Proof.
  unfold str_of_int. intros E.
  apply (f_equal (map ascii_of_N)) in E. rewrite !map_map in E.
  rewrite (map_ext _ (fun a => a)) in E by apply ascii_N_embedding.
  rewrite (map_ext (fun a => ascii_of_N (N_of_ascii a)) (fun a => a)) in E
    by apply ascii_N_embedding.
  rewrite !map_id in E.
  apply (f_equal string_of_list_ascii) in E.
  rewrite !string_of_list_ascii_of_string in E.
  pose proof (str_of_int_numeral m) as Hm.
  pose proof (str_of_int_numeral n) as Hn.
  rewrite E in Hm. congruence.
Qed.

Lemma digits_no_slash (d : Decimal.uint) :
  ~ In "/"%char (list_ascii_of_string (NilEmpty.string_of_uint d)).
Proof.
  induction d; simpl; intros H;
    try (destruct H as [H | H]; [discriminate H | exact (IHd H)]).
  exact H.
Qed.

Lemma uint_digits_no_slash (d : Decimal.uint) :
  ~ In "/"%char (list_ascii_of_string (NilZero.string_of_uint d)).
Proof.
  destruct d; try apply digits_no_slash.
  simpl. intros [H | H]; [discriminate H | exact H].
Qed.

Lemma str_of_int_no_slash (n : Z) : ~ In 47%N (str_of_int n).
Proof.
  unfold str_of_int. intros H. apply in_map_iff in H.
  destruct H as [a [Ha Hin]].
  assert (a = "/"%char).
  { rewrite <- (ascii_N_embedding a), Ha. reflexivity. }
  subst a. unfold NilZero.string_of_int in Hin.
  destruct (Z.to_int n) as [d | d]; simpl in Hin.
  - exact (uint_digits_no_slash d Hin).
  - destruct Hin as [Hin | Hin];
      [discriminate Hin | exact (uint_digits_no_slash d Hin)].
Qed.

Lemma split_at_separator (c : N) (a a' b b' : str) :
  ~ In c a -> ~ In c a' ->
  a ++ c :: b = a' ++ c :: b' -> a = a' /\ b = b'.
Proof.
  revert a'. induction a as [|x a IH]; intros [|y a'] Ha Ha' E; simpl in *.
  - injection E as E. now split.
  - injection E as E _. destruct Ha'. now left.
  - injection E as E _. destruct Ha. now left.
  - injection E as Exy E.
    destruct (IH a') as [-> ->]; [tauto | tauto | assumption|].
    now subst.
Qed.

(** X9.  A progress can be read back: two entries with the same progress come
    from projects with the same [current_phase] and the same number of
    phases. *)
Theorem progress_unambiguous
    (p q : Project) (w w' w'' : W) (e f : ProjectStatus) :
  project_status p w = Ok (e, w') ->
  project_status q w = Ok (f, w'') ->
  ps_progress e = ps_progress f ->
  current_phase p = current_phase q /\
  List.length (phases p) = List.length (phases q).
Proof.
  rewrite !project_status_eq.
  destruct (phase_at p) as [ph|]; [|discriminate].
  destruct (phase_at q) as [qh|]; [|discriminate].
  intros Ep Eq. inversion Ep; subst. inversion Eq; subst. cbn.
  unfold progress_fraction. change (u "/") with [47%N]. cbn [app].
  intros E. apply split_at_separator in E; try apply str_of_int_no_slash.
  destruct E as [E1 E2].
  apply str_of_int_inj in E1, E2. split; lia.
Qed.

End Progress.

(* ===================================================================== *)
(** ** More on [_is_casual_message] *)
(* ===================================================================== *)

Section CasualTexts.

Context {U : PyUnicode} {W : Type} {C : Collaborators W}.

Lemma marker_length (p : str) :
  In p casual_patterns -> (2 <= List.length p)%nat.
Proof.
  intros H. cbv in H.
  repeat (destruct H as [<- | H]; [simpl; lia|]). destruct H.
Qed.

(** X10.  Anything around a casual text leaves it casual: a marker anywhere in the
    message is enough. *)
Theorem casual_inside_longer_text (pre text post : str) :
  forallb plain_cp (pre ++ text ++ post) = true ->
  _is_casual_message text = true ->
  _is_casual_message (pre ++ text ++ post) = true.
Proof.
  intros Hplain Hc.
  assert (Htext : forallb plain_cp text = true).
  { rewrite !forallb_app in Hplain.
    apply andb_true_iff in Hplain. destruct Hplain as [_ H].
    apply andb_true_iff in H. apply H. }
  apply is_casual_message_spec in Hc. destruct Hc as [p [Hp Hs]].
  apply is_casual_message_spec. exists p. split; [assumption|].
  rewrite (lower_plain _ Hplain), !map_app.
  rewrite (lower_plain _ Htext) in Hs.
  destruct Hs as [a [b ->]].
  exists (map ascii_lower pre ++ a), (b ++ map ascii_lower post).
  now rewrite <- !app_assoc.
Qed.

(** X11.  The empty text, and any text of a single ASCII or CJK character, is not
    casual: [detect_and_track] then returns what steps 1 and 2 left, asks for
    no pending item and cannot raise. *)
Theorem short_text_gets_no_follow_up
    (text : str) (w w1 w2 : W) (pr hr : AssistantResult) :
  project_process_message text w = (pr, w1) ->
  habit_process_message text w1 = (hr, w2) ->
  forallb plain_cp text = true ->
  (List.length text < 2)%nat ->
  _is_casual_message text = false /\
  detect_and_track text w = Ok (arbitrate pr hr, w2).
Proof.
  intros Ep Eh Hplain Hshort.
  assert (Hc : _is_casual_message text = false).
  { apply is_casual_message_false. intros p Hp [a [b E]].
    apply (f_equal (@List.length _)) in E.
    rewrite (lower_plain _ Hplain), length_map, !length_app in E.
    pose proof (marker_length p Hp). lia. }
  split; [assumption|].
  rewrite detect_and_track_eq, Ep, Eh. cbv zeta.
  rewrite Hc, andb_false_r. reflexivity.
Qed.

End CasualTexts.

(* ===================================================================== *)
(** ** The command line at work *)
(* ===================================================================== *)

Section CommandLine.

Import Cli.

Context {U : PyUnicode} {W : Type} {C : Collaborators W}.

(** X12.  [process] without a text, or with the empty text, stops before either
    assistant is asked: one error line, exit status 1, and the world is the
    one the two constructors left. *)
Theorem main_process_needs_text (args : Args) (w wa wb : W) :
  command args = process ->
  text args = None \/ text args = Some [] ->
  ProjectAwareAssistant w = (tt, wa) ->
  HabitAwareAssistant wa = (tt, wb) ->
  main args w = Ok (([u "Error: --text required"], 1), wb).
Proof.
  intros Hc Ht Ea Eb.
  unfold main, SafeClawIntentBridge, bind, call, ret.
  rewrite Ea, Eb, Hc. destruct Ht as [-> | ->]; reflexivity.
Qed.

(** X13.  [process] with a text prints once and exits with 0 when
    [detect_and_track] returns: the message after a newline if it is a
    non-empty string, and "No action taken" if it is null or empty. *)
Theorem main_process_prints_once
    (args : Args) (t : str) (w wa wb w' : W) (r : IntentResult) :
  command args = process ->
  text args = Some t ->
  t <> [] ->
  ProjectAwareAssistant w = (tt, wa) ->
  HabitAwareAssistant wa = (tt, wb) ->
  detect_and_track t wb = Ok (r, w') ->
  exists line,
    main args w = Ok (([line], 0), w') /\
    (forall m, message r = Some m -> m <> [] -> line = nl ++ m) /\
    (message r = None \/ message r = Some [] ->
     line = nl ++ u "No action taken").
Proof.
  intros Hc Ht Hne Ea Eb Ed.
  unfold main, SafeClawIntentBridge, bind, call, ret.
  rewrite Ea, Eb, Hc, Ht.
  destruct t as [|c t]; [now destruct Hne|]. cbn [truthy str_truthy negb].
  rewrite Ed.
  destruct (message r) as [[|d m]|] eqn:Hm; cbn [truthy str_truthy].
  - eexists. split; [reflexivity|]. split.
    + intros m E Hm'. injection E as <-. now destruct Hm'.
    + reflexivity.
  - eexists. split; [reflexivity|]. split.
    + intros m' E _. now injection E as <-.
    + intros [H | H]; discriminate H.
  - eexists. split; [reflexivity|]. split.
    + intros m E. discriminate E.
    + reflexivity.
Qed.




End CommandLine.

(* ===================================================================== *)
(** ** These properties on the scripted assistants *)
(* ===================================================================== *)

Section MoreExamples.

Import Fake Scenes Cli.

#[local] Existing Instance ascii_unicode.
#[local] Existing Instance Fake.collaborators.

Lemma project_reply_stands_witness :
  detect_and_track (u "hi") project_only
  = Ok ({| action := u "update_progress"; message := Some (u "Noted") |},
        twice_logged (u "hi") project_only).
Proof.
  apply (project_reply_stands (u "hi") project_only
           (log (u "hi") project_only) (twice_logged (u "hi") project_only)
           (says "update_progress" "Noted") silent).
  - reflexivity.
  - reflexivity.
  - cbv; tauto.
  - cbv. intros [H | [H | []]]; discriminate H.
  - left. discriminate.
Defined.

Lemma result_shapes_witness :
  In (u "follow_up") result_actions.
Proof.
  apply (result_shapes (u "hi") idle
           (log (u "hi") idle) (twice_logged (u "hi") idle)
           (twice_logged (u "hi") idle) silent silent
           (follow_up_result (project_follow_up website
                                {| phase_name := u "Design" |})));
    reflexivity.
Defined.


Lemma stale_second_is_harmless :
  detect_and_track (u "hi") stale_second
  = Ok (follow_up_result (project_follow_up website
                            {| phase_name := u "Design" |}),
        twice_logged (u "hi") stale_second) /\
  get_status stale_second = Raise IndexError.
Proof. split; reflexivity. Qed.

Lemma follow_up_exactly_when_witness :
  detect_and_track (u "hi") habits_only
  = Ok (follow_up_result (habit_follow_up running),
        twice_logged (u "hi") habits_only) /\
  message (arbitrate silent silent) = None /\
  _is_casual_message (u "hi") = true /\
  follow_up_available (twice_logged (u "hi") habits_only).
Proof.
  split; [reflexivity|].
  apply (follow_up_exactly_when (u "hi") habits_only
           (log (u "hi") habits_only) (twice_logged (u "hi") habits_only)
           (twice_logged (u "hi") habits_only) silent silent
           (follow_up_result (habit_follow_up running)));
    reflexivity.
Defined.

Lemma casual_follow_up_on_active_habit_witness :
  detect_and_track (u "hi") habits_only
  = Ok (follow_up_result (habit_follow_up running),
        twice_logged (u "hi") habits_only) /\
  Substring (u "Running") (habit_follow_up running) /\
  Substring (u "4") (habit_follow_up running).
Proof.
  apply (casual_follow_up_on_active_habit (u "hi") habits_only
           (log (u "hi") habits_only) (twice_logged (u "hi") habits_only)
           (twice_logged (u "hi") habits_only)
           (twice_logged (u "hi") habits_only) silent silent running []).
  - reflexivity.
  - reflexivity.
  - reflexivity.
  - vm_compute. reflexivity.
  - reflexivity.
  - reflexivity.
Defined.

Lemma running_follow_up_text :
  habit_follow_up running = u "Running连续4天了！今天做了吗？".
Proof. vm_compute. reflexivity. Qed.

Lemma status_counts_and_order_witness :
  exists snap,
    get_status idle = Ok (snap, idle) /\
    active_projects snap = Z.of_nat (List.length (projects snap)) /\
    active_habits snap = Z.of_nat (List.length (habits snap)) /\
    map ps_name (projects snap) = [u "Website Redesign"] /\
    map hs_name (habits snap) = [u "Running"].
Proof.
  destruct (get_status idle) as [[snap w']|e] eqn:E; [|discriminate E].
  edestruct (status_counts_and_order idle idle idle w' [website] [running]
               snap) as [Hw [Hp [Hh [Hn [Hm _]]]]];
    [reflexivity | reflexivity | exact E |].
  exists snap. rewrite Hw. repeat split; assumption.
Defined.


(** Counting from the end: phase [-1] of three is the last one, and the
    progress reads ["0/3"]. *)
Lemma project_status_bounds_witness :
  exists ph,
    nth_error (phases backwards) 2 = Some ph /\
    project_status backwards nothing
    = Ok ({| ps_name := u "Countdown";
             ps_phase := phase_name ph;
             ps_progress := str_of_int 0 ++ u "/" ++ str_of_int 3 |},
          nothing).
Proof.
  destruct (project_status_bounds backwards nothing) as [_ H].
  apply H. cbn. lia.
Defined.

Lemma progress_unambiguous_witness :
  current_phase website = 1 /\ List.length (phases website) = 3%nat.
Proof.
  apply (progress_unambiguous website
           {| project_name := u "Move";
              phases := [ {| phase_name := u "Pack" |};
                          {| phase_name := u "Drive" |};
                          {| phase_name := u "Unpack" |} ];
              current_phase := 1 |}
           nothing nothing nothing
           {| ps_name := u "Website Redesign"; ps_phase := u "Design";
              ps_progress := u "2/3" |}
           {| ps_name := u "Move"; ps_phase := u "Drive";
              ps_progress := u "2/3" |});
    reflexivity.
Defined.

Lemma casual_inside_longer_text_witness :
  _is_casual_message (u "create project: " ++ u "hi" ++ u " there") = true.
Proof.
  apply (casual_inside_longer_text (u "create project: ") (u "hi")
           (u " there")); vm_compute; reflexivity.
Defined.

Lemma short_text_gets_no_follow_up_witness :
  _is_casual_message [] = false /\
  detect_and_track [] idle
  = Ok ({| action := u "none"; message := None |}, twice_logged [] idle).
Proof.
  apply (short_text_gets_no_follow_up [] idle (log [] idle)
           (twice_logged [] idle) silent silent);
    [reflexivity | reflexivity | reflexivity | simpl; lia].
Defined.

Lemma main_process_needs_text_witness :
  main {| command := process; text := Some [] |} idle
  = Ok (([u "Error: --text required"], 1), idle).
Proof.
  apply (main_process_needs_text
           {| command := process; text := Some [] |} idle idle idle);
    [reflexivity | now right | reflexivity | reflexivity].
Defined.

Lemma main_process_prints_once_witness :
  exists line,
    main {| command := process; text := Some (u "what") |} idle
    = Ok (([line], 0), twice_logged (u "what") idle) /\
    line = nl ++ u "No action taken".
Proof.
  edestruct (main_process_prints_once
               {| command := process; text := Some (u "what") |}
               (u "what") idle idle idle (twice_logged (u "what") idle)
               {| action := u "none"; message := None |})
    as [line [Hmain [_ Hnone]]];
    [reflexivity | reflexivity | discriminate
    | reflexivity | reflexivity | reflexivity |].
  exists line. split; [exact Hmain | apply Hnone; now left].
Defined.


End MoreExamples.
